(** * ts-advanced: the runtime behaviour of the exercises

    The repository is a set of TypeScript exercises.  Types are erased when
    the code runs; what is left is three small pieces of JavaScript:

    - [canUserAccess], a lookup in the role table [userAccessModel]
      (once in [src/exercises/02-roleBasedAccess.exercise.ts], once in the
      stand-alone copy of that file's code);
    - [isValidEmail], [createUser] and [onSubmit], the opaque-type exercise;
    - [fetchUserWithFullName], the wrapper around the external [fetchUser].

    The embedding is shallow.  A JavaScript string is the list of its UTF-16
    code units, an object is a finite map from property names to values (two
    of them where a spread and a read see different properties), and code
    that can throw or touch state lives in a small state-and-exception monad
    [JS]. *)

From Stdlib Require Import NArith Ascii String.
From stdpp Require Import base option list gmap fin_maps.

Local Open Scope N_scope.

(** ** Strings *)

(** A string value: its UTF-16 code units, in order. *)
Abbreviation jsstring := (list N).

(** A string literal of the source text (all of them are ASCII). *)
Definition lit (s : string) : jsstring :=
  N_of_ascii <$> list_ascii_of_string s.

(** [SameValueZero] on two strings: the same code units. *)
Definition SameValueZero (x y : jsstring) : bool := bool_decide (x = y).

(** [Array.prototype.includes] on an array of strings: walk the elements from
    index 0 and stop at the first one that is [SameValueZero] to the
    argument. *)
Fixpoint Array_includes (arr : list jsstring) (searchElement : jsstring) : bool :=
  match arr with
  | [] => false
  | elementK :: rest =>
      if SameValueZero elementK searchElement then true
      else Array_includes rest searchElement
  end.

(** [s] starts with [searchString]. *)
Fixpoint startsWith (s searchString : jsstring) {struct searchString} : bool :=
  match searchString, s with
  | [], _ => true
  | _ :: _, [] => false
  | c :: searchString', d :: s' => N.eqb d c && startsWith s' searchString'
  end.

(** [String.prototype.includes]: [searchString] occurs in [s] as a run of
    consecutive code units, at some index from 0 on. *)
Fixpoint String_includes (s searchString : jsstring) : bool :=
  startsWith s searchString
  || match s with
     | [] => false
     | _ :: s' => String_includes s' searchString
     end.

(** ** Completions and the monad of effects *)

Inductive JSError : Type :=
| Error (message : jsstring)     (* [new Error(message)] *)
| TypeError.                     (* raised by the engine, e.g. a call on [undefined] *)

(** How an evaluation ends.  For an [async] function this is how the promise it
    returns settles: [Normal v] is fulfilment with [v], [Throw e] is rejection
    with [e]; [await p] continues with the value of a fulfilled [p] and throws
    the reason of a rejected one. *)
Inductive Completion (A : Type) : Type :=
| Normal (value : A)
| Throw (reason : JSError).
Arguments Normal {A} value.
Arguments Throw {A} reason.

(** A computation over a state of type [St]. *)
Definition JS (St A : Type) : Type := St → Completion A * St.

#[global] Instance JS_ret {St} : MRet (JS St) :=
  λ A (v : A) (st : St), (Normal v, st).

#[global] Instance JS_bind {St} : MBind (JS St) :=
  λ A B (k : A → JS St B) (m : JS St A) (st : St),
    match m st with
    | (Normal v, st') => k v st'
    | (Throw e, st') => (Throw e, st')
    end.

Definition throw {St A} (e : JSError) : JS St A := λ st, (Throw e, st).
Definition getState {St} : JS St St := λ st, (Normal st, st).
Definition putState {St} (st' : St) : JS St unit := λ _, (Normal tt, st').

Definition completion {St A} (m : JS St A) (st : St) : Completion A := (m st).1.
Definition finalState {St A} (m : JS St A) (st : St) : St := (m st).2.

(** ** Roles and actions *)

(** [type Role = keyof typeof userAccessModel]: the three keys. *)
Inductive Role : Type := Role_user | Role_admin | Role_anonymous.

(** [type Action = typeof userAccessModel[Role][number]]: the members of the
    three arrays. *)
Inductive Action : Type :=
| Action_create | Action_update_self | Action_update_any | Action_delete | Action_view.

(** The string a value of the literal union is at run time. *)
Definition roleName (role : Role) : jsstring :=
  match role with
  | Role_user => lit "user"
  | Role_admin => lit "admin"
  | Role_anonymous => lit "anonymous"
  end.

Definition actionName (action : Action) : jsstring :=
  match action with
  | Action_create => lit "create"
  | Action_update_self => lit "update-self"
  | Action_update_any => lit "update-any"
  | Action_delete => lit "delete"
  | Action_view => lit "view"
  end.

Definition allActions : list Action :=
  [Action_create; Action_update_self; Action_update_any; Action_delete; Action_view].

(** The role table as an object: property name to array of strings.  [as const]
    is a type annotation and freezes nothing at run time, so the table is
    state like any other object. *)
Abbreviation AccessModel := (gmap (list N) (list (list N))).

(** What "the action appears in the table's entry for the role" means. *)
Definition listed (model : AccessModel) (role : Role) (action : Action) : Prop :=
  ∃ entry, model !! roleName role = Some entry ∧ actionName action ∈ entry.

(** *** [src/exercises/02-roleBasedAccess.exercise.ts] *)
Module Exercise.

Definition userAccessModel : AccessModel :=
  list_to_map
    [ (lit "user", [lit "update-self"; lit "view"]);
      (lit "admin",
        [lit "create"; lit "update-self"; lit "update-any"; lit "delete"; lit "view"]);
      (lit "anonymous", [lit "view"]) ].

(** [userAccessModel[role]] reads the object the constant is bound to.  A key
    that names none of its arrays (no property at all, or an inherited one
    such as [toString]) gives nothing with an [includes] method, and the call
    throws a [TypeError]. *)
Definition canUserAccess (role : Role) (action : Action) : JS AccessModel bool :=
  model ← getState;
  match model !! roleName role with
  | Some possibleActions => mret (Array_includes possibleActions (actionName action))
  | None => throw TypeError
  end.

End Exercise.

(** *** The stand-alone module with the same table and function *)
Module AccessModule.

Definition userAccessModel : AccessModel :=
  list_to_map
    [ (lit "user", [lit "update-self"; lit "view"]);
      (lit "admin",
        [lit "create"; lit "update-self"; lit "update-any"; lit "delete"; lit "view"]);
      (lit "anonymous", [lit "view"]) ].

(** [userAccessModel[role]] reads the object the constant is bound to.  A key
    that names none of its arrays (no property at all, or an inherited one
    such as [toString]) gives nothing with an [includes] method, and the call
    throws a [TypeError]. *)
Definition canUserAccess (role : Role) (action : Action) : JS AccessModel bool :=
  model ← getState;
  match model !! roleName role with
  | Some possibleActions => mret (Array_includes possibleActions (actionName action))
  | None => throw TypeError
  end.

(** Any number of calls, one after the other, each on the state the previous
    one left.  [canUserAccess] is the module's only export, so these are
    all the operations there are on the table. *)
Fixpoint afterCalls (calls : list (Role * Action)) (st : AccessModel) : AccessModel :=
  match calls with
  | [] => st
  | (role, action) :: calls' =>
      afterCalls calls' (finalState (canUserAccess role action) st)
  end.

(** The same function as it runs: the types are erased, so a caller that is
    not type-checked (or that casts) can hand it any two strings. *)
Definition canUserAccessUntyped (role action : jsstring) : JS AccessModel bool :=
  model ← getState;
  match model !! role with
  | Some possibleActions => mret (Array_includes possibleActions action)
  | None => throw TypeError
  end.

End AccessModule.

(** ** The opaque-type exercise: [isValidEmail], [createUser], [onSubmit] *)
Module OpaqueEmail.

(** [{ email: string }]; [ValidEmail] is the same value at run time. *)
Record Values : Type := { email : jsstring }.

(** The source's [createUser] only returns its argument ("pseudocode, creates
    a user in the database").  The state here is the list of the arguments it
    has been called with, oldest first, so that a statement can say what was
    handed to it. *)
Abbreviation CreateUserCalls := (list Values).

Definition isValidEmail (email : jsstring) : bool :=
  String_includes email (lit "@").

Definition createUser (user : Values) : JS CreateUserCalls Values :=
  calls ← getState;
  _ ← putState (calls ++ [user]);
  mret user.

Definition onSubmit (values : Values) : JS CreateUserCalls unit :=
  _ ← (if negb (isValidEmail (email values))
       then throw (Error (lit "Email is invalid"))
       else mret tt);
  _ ← createUser {| email := email values |};
  mret tt.

(** A caller that submits one form after the other and goes on after a
    rejection: the calls [createUser] has seen once all promises settled. *)
Fixpoint submitAll (forms : list Values) (calls : CreateUserCalls) : CreateUserCalls :=
  match forms with
  | [] => calls
  | values :: forms' => submitAll forms' (finalState (onSubmit values) calls)
  end.

End OpaqueEmail.

(** ** [fetchUserWithFullName] *)

(** A property value: a string, [undefined], or any other value. *)
Inductive JSValue (Other : Type) : Type :=
| VUndefined
| VString (s : jsstring)
| VOther (o : Other).
Arguments VUndefined {Other}.
Arguments VString {Other} s.
Arguments VOther {Other} o.

(** An object, as far as a spread and a property read can tell.
    [ownEnumerable] holds its own enumerable string-keyed properties: what
    [{ ...obj }] copies.  [otherReadable] holds what a read [obj.key] finds
    for the other keys: a property that is not enumerable, or one found up
    the prototype chain, such as a getter or a method of the object's class.
    A getter counts with the value it returns; it is taken to return the same
    value at every read and to run no other code. *)
Record JSObject (Other : Type) : Type := {
  ownEnumerable : gmap (list N) (JSValue Other);
  otherReadable : gmap (list N) (JSValue Other)
}.
Arguments ownEnumerable {Other} _.
Arguments otherReadable {Other} _.

(** Where a read [obj.key] finds its value: on the object itself first, then
    among the rest; nowhere for a key the object and its prototypes lack. *)
Definition lookupProperty {Other} (obj : JSObject Other) (key : jsstring)
  : option (JSValue Other) :=
  match ownEnumerable obj !! key with
  | Some v => Some v
  | None => otherReadable obj !! key
  end.

(** [obj.key]: the value found, or [undefined] when there is none. *)
Definition getProperty {Other} (obj : JSObject Other) (key : jsstring)
  : JSValue Other :=
  default VUndefined (lookupProperty obj key).

Section ExternalLib.

(** [fetchUser] is imported from ["external-lib"], which is no part of the
    repository: its parameter tuple, the state it works on, the values it
    can put into an object and the function itself are parameters. *)
Variable Args : Type.
Variable World : Type.
Variable Other : Type.

(** [ToString] on a value that is neither a string nor [undefined]; it may
    throw (a symbol) or run code (an object's [toString]). *)
Variable ToStringOther : Other → JS World jsstring.

(** What a read finds on [Object.prototype], which every object written as a
    literal inherits from. *)
Variable objectPrototype : gmap (list N) (JSValue Other).

(** [fetchUser] fulfils with an object or rejects. *)
Variable fetchUser : Args → JS World (JSObject Other).

Definition ToString (v : JSValue Other) : JS World jsstring :=
  match v with
  | VUndefined => mret (lit "undefined")
  | VString s => mret s
  | VOther o => ToStringOther o
  end.

(** [{ ...user, fullName: `${user.firstName} ${user.lastName}` }]: the spread
    copies the own enumerable properties of [user] into a new object, then
    the template literal reads the two names off [user], converts them left
    to right, and the text is stored under [fullName].  The new object is a
    literal: beyond its own properties a read finds [Object.prototype]. *)
Definition fetchUserWithFullName (args : Args) : JS World (JSObject Other) :=
  user ← fetchUser args;
  firstName ← ToString (getProperty user (lit "firstName"));
  lastName ← ToString (getProperty user (lit "lastName"));
  mret {| ownEnumerable :=
            <[lit "fullName" := VString (firstName ++ lit " " ++ lastName)]>
              (ownEnumerable user);
          otherReadable := objectPrototype |}.

End ExternalLib.

Arguments ToString {World Other} ToStringOther v.
Arguments fetchUserWithFullName {Args World Other}
  ToStringOther objectPrototype fetchUser args.

(** The specification's words for the result: the object [fetchUser] returned
    with every one of its fields unchanged, and exactly one field more,
    [fullName], holding [firstName], a space and [lastName]. *)
Definition extendedByFullName {Other} (user result : JSObject Other) : Prop :=
  (∀ key v, ownEnumerable user !! key = Some v →
            ownEnumerable result !! key = Some v)
  ∧ size (ownEnumerable result) = S (size (ownEnumerable user))
  ∧ ∃ first last,
      getProperty user (lit "firstName") = VString first
      ∧ getProperty user (lit "lastName") = VString last
      ∧ ownEnumerable result !! lit "fullName"
        = Some (VString (first ++ lit " " ++ last)).

(** The text [ToString] gives without running any code: a string is itself,
    [undefined] reads ["undefined"]; no such text for the other values. *)
Definition plainText {Other} (v : JSValue Other) : option jsstring :=
  match v with
  | VUndefined => Some (lit "undefined")
  | VString s => Some s
  | VOther _ => None
  end.

(** The user object's two name properties convert without running code. *)
Definition plainNames {Other} (user : JSObject Other) : Prop :=
  is_Some (plainText (getProperty user (lit "firstName")))
  ∧ is_Some (plainText (getProperty user (lit "lastName"))).

(** The two names are own enumerable properties of the user, and convert
    without running code. *)
Definition ownPlainNames {Other} (user : JSObject Other) : Prop :=
  (∃ v, ownEnumerable user !! lit "firstName" = Some v ∧ is_Some (plainText v))
  ∧ (∃ v, ownEnumerable user !! lit "lastName" = Some v ∧ is_Some (plainText v)).

(** A stand-in for the external library, to run the wrapper on: [fetchUser(id)]
    fulfils with a user of that id written as an object literal, touches no
    state, and stores strings only. *)
Definition sampleToStringOther : Empty_set → JS unit jsstring :=
  λ o, match o with end.

(** With no value but strings and [undefined] there is nothing of
    [Object.prototype] to show: its properties are functions. *)
Definition sampleObjectPrototype : gmap (list N) (JSValue Empty_set) := ∅.

Definition sampleFetchUser (id : jsstring) : JS unit (JSObject Empty_set) :=
  mret {| ownEnumerable :=
            list_to_map
              [ (lit "id", VString id);
                (lit "firstName", VString (lit "John"));
                (lit "lastName", VString (lit "Doe")) ];
          otherReadable := sampleObjectPrototype |}.

(** Three more stand-ins: a [fetchUser] whose users come with a [fullName]
    already, one whose users have an id and no names, and one whose users
    are instances of a class that keeps the id on the object and has getters
    for the names. *)
Definition sampleFetchNamedUser (id : jsstring) : JS unit (JSObject Empty_set) :=
  mret {| ownEnumerable :=
            list_to_map
              [ (lit "id", VString id);
                (lit "firstName", VString (lit "John"));
                (lit "lastName", VString (lit "Doe"));
                (lit "fullName", VString (lit "JD")) ];
          otherReadable := sampleObjectPrototype |}.

Definition sampleFetchBareUser (id : jsstring) : JS unit (JSObject Empty_set) :=
  mret {| ownEnumerable := list_to_map [ (lit "id", VString id) ];
          otherReadable := sampleObjectPrototype |}.

Definition sampleFetchClassUser (id : jsstring) : JS unit (JSObject Empty_set) :=
  mret {| ownEnumerable := list_to_map [ (lit "id", VString id) ];
          otherReadable :=
            list_to_map
              [ (lit "firstName", VString (lit "John"));
                (lit "lastName", VString (lit "Doe")) ] |}.

(** * Properties *)

(** ** The library functions *)

Lemma Array_includes_elem_of (arr : list jsstring) (x : jsstring) :
  Array_includes arr x = true ↔ x ∈ arr.
Proof.
  induction arr as [|y arr IH]; simpl.
  - split; [discriminate | intros H; inversion H].
  - unfold SameValueZero. rewrite elem_of_cons.
    case_bool_decide as Hyx.
    + split; [intros _; left; congruence | reflexivity].
    + rewrite IH. split; [tauto | intros [->|H]; [congruence | exact H]].
Qed.

Lemma Array_includes_not_elem_of (arr : list jsstring) (x : jsstring) :
  Array_includes arr x = false ↔ x ∉ arr.
Proof.
  rewrite <- Array_includes_elem_of.
  destruct (Array_includes arr x); split; congruence.
Qed.

Lemma startsWith_prefix (s t : jsstring) :
  startsWith s t = true ↔ ∃ post, s = t ++ post.
Proof.
  revert s. induction t as [|c t IH]; intros s; simpl.
  - split; [intros _; by exists s | done].
  - destruct s as [|d s].
    + split; [discriminate | intros [post H]; discriminate].
    + rewrite andb_true_iff, N.eqb_eq, IH. split.
      * intros [-> [post ->]]. by exists post.
      * intros [post H]. injection H as -> ->. split; [done | by exists post].
Qed.

(** [String_includes] is substring search. *)
Lemma String_includes_substring (s t : jsstring) :
  String_includes s t = true ↔ ∃ pre post, s = pre ++ t ++ post.
Proof.
  induction s as [|d s IH].
  - simpl. rewrite orb_false_r, startsWith_prefix. split.
    + intros [post H]. by exists [], post.
    + intros [pre [post H]]. destruct pre; [by exists post | discriminate].
  - cbn [String_includes]. rewrite orb_true_iff, startsWith_prefix, IH. split.
    + intros [[post H] | [pre [post H]]].
      * by exists [], post.
      * exists (d :: pre), post. by rewrite H.
    + intros [pre [post H]]. destruct pre as [|e pre].
      * left. by exists post.
      * right. injection H as -> ->. by exists pre, post.
Qed.

(** Searching for a one-unit string is asking whether the unit occurs. *)
Lemma String_includes_unit (s : jsstring) (c : N) :
  String_includes s [c] = true ↔ c ∈ s.
Proof.
  rewrite String_includes_substring. split.
  - intros [pre [post ->]]. set_solver.
  - intros (pre & post & ->)%list_elem_of_split. by exists pre, post.
Qed.

(** ** The role table *)

Lemma roleName_inj : Inj (=) (=) roleName.
Proof. intros [] [] H; first [reflexivity | by vm_compute in H]. Qed.

Lemma actionName_inj : Inj (=) (=) actionName.
Proof. intros [] [] H; first [reflexivity | by vm_compute in H]. Qed.

(** On any table that has an entry for the role, the call returns whether the
    entry includes the action and leaves the table alone. *)
Lemma canUserAccess_entry (model : AccessModel) role action entry :
  model !! roleName role = Some entry →
  AccessModule.canUserAccess role action model
  = (Normal (Array_includes entry (actionName action)), model).
Proof.
  intros Hentry. unfold AccessModule.canUserAccess, mbind, JS_bind, getState.
  by rewrite Hentry.
Qed.

Lemma canUserAccess_finalState (model : AccessModel) role action :
  finalState (AccessModule.canUserAccess role action) model = model.
Proof.
  unfold finalState, AccessModule.canUserAccess, mbind, JS_bind, getState.
  by destruct (model !! roleName role).
Qed.

Lemma afterCalls_id (calls : list (Role * Action)) (model : AccessModel) :
  AccessModule.afterCalls calls model = model.
Proof.
  revert model. induction calls as [|[role action] calls IH]; intros model; simpl.
  - reflexivity.
  - by rewrite canUserAccess_finalState.
Qed.

Ltac entry_listed :=
  let x := fresh "x" in
  intros x; unfold allActions; cbn [fmap list_fmap actionName];
  rewrite !elem_of_cons, !elem_of_nil; tauto.

Lemma userAccessModel_entry role :
  ∃ entry, AccessModule.userAccessModel !! roleName role = Some entry
           ∧ entry ≠ []
           ∧ entry ⊆ actionName <$> allActions.
Proof.
  destruct role.
  - exists [lit "update-self"; lit "view"].
    split; [by vm_compute | split; [done | entry_listed]].
  - exists [lit "create"; lit "update-self"; lit "update-any"; lit "delete"; lit "view"].
    split; [by vm_compute | split; [done | entry_listed]].
  - exists [lit "view"].
    split; [by vm_compute | split; [done | entry_listed]].
Qed.

(** The keys of the table are the three role names and nothing else, which is
    what [keyof typeof userAccessModel] says. *)
Lemma userAccessModel_keys (key : jsstring) :
  is_Some (AccessModule.userAccessModel !! key) ↔ ∃ role, key = roleName role.
Proof.
  unfold AccessModule.userAccessModel. split.
  - intros [entry Hkey].
    apply elem_of_list_to_map_2 in Hkey.
    rewrite !elem_of_cons, elem_of_nil in Hkey.
    destruct Hkey as [[= -> _] | [[= -> _] | [[= -> _] | []]]].
    + by exists Role_user.
    + by exists Role_admin.
    + by exists Role_anonymous.
  - intros [role ->]. destruct (userAccessModel_entry role) as (entry & Hentry & _).
    by exists entry.
Qed.

(** The same two facts for the exercise file's copy. *)
Lemma Exercise_canUserAccess_entry (model : AccessModel) role action entry :
  model !! roleName role = Some entry →
  Exercise.canUserAccess role action model
  = (Normal (Array_includes entry (actionName action)), model).
Proof.
  intros Hentry. unfold Exercise.canUserAccess, mbind, JS_bind, getState.
  by rewrite Hentry.
Qed.

Lemma userAccessModel_same : Exercise.userAccessModel = AccessModule.userAccessModel.
Proof. reflexivity. Qed.

(** C1. For every role and action, [canUserAccess] returns [true] exactly when
    the action appears in the table's entry for the role, and [false] exactly
    when it does not; this holds at the first call and after any calls made
    before. *)
Theorem canUserAccess_true_iff_listed
    (calls : list (Role * Action)) (role : Role) (action : Action) :
  let result :=
    completion (AccessModule.canUserAccess role action)
               (AccessModule.afterCalls calls AccessModule.userAccessModel) in
  (result = Normal true ↔ listed AccessModule.userAccessModel role action)
  ∧ (result = Normal false ↔ ¬ listed AccessModule.userAccessModel role action).
Proof.
  intros result. subst result. rewrite afterCalls_id.
  destruct (userAccessModel_entry role) as (entry & Hentry & _ & _).
  unfold completion, listed.
  rewrite (canUserAccess_entry _ _ _ _ Hentry). simpl. split.
  - split.
    + intros [= Hin]. exists entry. split; [done | by apply Array_includes_elem_of].
    + intros (entry' & Hentry' & Hin). rewrite Hentry in Hentry'.
      injection Hentry' as <-. f_equal. by apply Array_includes_elem_of.
  - split.
    + intros [= Hout] (entry' & Hentry' & Hin). rewrite Hentry in Hentry'.
      injection Hentry' as <-. by apply Array_includes_not_elem_of in Hout.
    + intros Hnot. f_equal. apply Array_includes_not_elem_of.
      intros Hin. apply Hnot. by exists entry.
Qed.

(** C2. The table has an entry for each of the three roles, and each entry is
    non-empty and holds only action names of the five-element action set. *)
Theorem userAccessModel_total_nonempty_subset (role : Role) :
  ∃ entry : list jsstring,
    AccessModule.userAccessModel !! roleName role = Some entry
    ∧ entry ≠ []
    ∧ ∀ name, name ∈ entry → ∃ action : Action, name = actionName action.
Proof.
  destruct (userAccessModel_entry role) as (entry & Hentry & Hne & Hsub).
  exists entry. split; [done | split; [done |]].
  intros name Hin. apply Hsub in Hin.
  apply list_elem_of_fmap in Hin as (action & -> & _). by exists action.
Qed.

(** C3. For every role and action the call completes normally with a boolean,
    at the first call and after any calls made before: the [TypeError] branch
    is never taken. *)
Theorem canUserAccess_no_error
    (calls : list (Role * Action)) (role : Role) (action : Action) :
  ∃ b : bool,
    completion (AccessModule.canUserAccess role action)
               (AccessModule.afterCalls calls AccessModule.userAccessModel)
    = Normal b.
Proof.
  rewrite afterCalls_id.
  destruct (userAccessModel_entry role) as (entry & Hentry & _ & _).
  exists (Array_includes entry (actionName action)).
  unfold completion. by rewrite (canUserAccess_entry _ _ _ _ Hentry).
Qed.

(** C4. [canUserAccess] is deterministic: two calls with the same role and
    action return the same result, whatever calls were made before each of
    them; in particular a call repeated right after itself repeats its
    result. *)
Theorem canUserAccess_deterministic
    (calls1 calls2 : list (Role * Action)) (role : Role) (action : Action) :
  completion (AccessModule.canUserAccess role action)
             (AccessModule.afterCalls calls1 AccessModule.userAccessModel)
  = completion (AccessModule.canUserAccess role action)
               (AccessModule.afterCalls calls2 AccessModule.userAccessModel).
Proof. by rewrite !afterCalls_id. Qed.

(** C5. [canUserAccess("admin", "delete")] returns [true]. *)
Theorem canUserAccess_admin_delete :
  completion (AccessModule.canUserAccess Role_admin Action_delete)
             AccessModule.userAccessModel
  = Normal true.
Proof. vm_compute. reflexivity. Qed.

(** C6. [canUserAccess("anonymous", "delete")] returns [false]. *)
Theorem canUserAccess_anonymous_delete :
  completion (AccessModule.canUserAccess Role_anonymous Action_delete)
             AccessModule.userAccessModel
  = Normal false.
Proof. vm_compute. reflexivity. Qed.

(** C7. [canUserAccess] has no side effect: a call leaves the table, whatever
    it holds, as it found it, and so after any sequence of calls the table is
    still the one built when the module was loaded. *)
Theorem canUserAccess_no_side_effect :
  (∀ (model : AccessModel) (role : Role) (action : Action),
     finalState (AccessModule.canUserAccess role action) model = model)
  ∧ (∀ calls : list (Role * Action),
       AccessModule.afterCalls calls AccessModule.userAccessModel
       = AccessModule.userAccessModel).
Proof.
  split.
  - intros model role action. apply canUserAccess_finalState.
  - intros calls. apply afterCalls_id.
Qed.

(** C9. The exercise file's [canUserAccess] with its table and the stand-alone
    module's [canUserAccess] with its table are the same function: for every
    role and action both complete with the same boolean, and both leave their
    table as it was. *)
Theorem canUserAccess_definitions_agree (role : Role) (action : Action) :
  Exercise.canUserAccess role action Exercise.userAccessModel
  = AccessModule.canUserAccess role action AccessModule.userAccessModel.
Proof.
  destruct (userAccessModel_entry role) as (entry & Hentry & _ & _).
  assert (Exercise.userAccessModel !! roleName role = Some entry) as Hentry'
    by (rewrite userAccessModel_same; exact Hentry).
  etransitivity; [apply (Exercise_canUserAccess_entry _ _ _ _ Hentry') |].
  symmetry. rewrite userAccessModel_same.
  apply (canUserAccess_entry _ _ _ _ Hentry).
Qed.

(** ** [onSubmit] *)

Lemma isValidEmail_at (email : jsstring) :
  OpaqueEmail.isValidEmail email = true ↔ N_of_ascii "@" ∈ email.
Proof. unfold OpaqueEmail.isValidEmail. apply String_includes_unit. Qed.

Lemma onSubmit_invalid (values : OpaqueEmail.Values) (calls : list OpaqueEmail.Values) :
  OpaqueEmail.isValidEmail (OpaqueEmail.email values) = false →
  OpaqueEmail.onSubmit values calls = (Throw (Error (lit "Email is invalid")), calls).
Proof.
  intros Hinvalid. unfold OpaqueEmail.onSubmit, mbind, JS_bind.
  by rewrite Hinvalid.
Qed.

Lemma onSubmit_valid (values : OpaqueEmail.Values) (calls : list OpaqueEmail.Values) :
  OpaqueEmail.isValidEmail (OpaqueEmail.email values) = true →
  OpaqueEmail.onSubmit values calls
  = (Normal tt, calls ++ [ {| OpaqueEmail.email := OpaqueEmail.email values |} ]).
Proof.
  intros Hvalid. unfold OpaqueEmail.onSubmit, mbind, JS_bind.
  by rewrite Hvalid.
Qed.

(** C8. [onSubmit] throws [Error("Email is invalid")] exactly when the email
    has no ["@"] in it; when it has one, [onSubmit] completes normally and has
    called [createUser] once more than before, with that very email. *)
Theorem onSubmit_throws_iff_no_at
    (values : OpaqueEmail.Values) (calls : list OpaqueEmail.Values) :
  (completion (OpaqueEmail.onSubmit values) calls
   = Throw (Error (lit "Email is invalid"))
   ↔ N_of_ascii "@" ∉ OpaqueEmail.email values)
  ∧ (N_of_ascii "@" ∈ OpaqueEmail.email values →
     OpaqueEmail.onSubmit values calls
     = (Normal tt, calls ++ [ {| OpaqueEmail.email := OpaqueEmail.email values |} ])).
Proof.
  rewrite <- isValidEmail_at. unfold completion.
  destruct (OpaqueEmail.isValidEmail (OpaqueEmail.email values)) eqn:Hvalid.
  - rewrite (onSubmit_valid _ _ Hvalid). simpl. split; [| done].
    split; [discriminate | intros Hno; by destruct Hno].
  - rewrite (onSubmit_invalid _ _ Hvalid). simpl. split; [| discriminate].
    split; [intros _; discriminate | done].
Qed.

Lemma onSubmit_throws_iff_no_at_witness :
  N_of_ascii "@" ∈ lit "a@b"
  ∧ OpaqueEmail.onSubmit {| OpaqueEmail.email := lit "a@b" |} []
    = (Normal tt, [ {| OpaqueEmail.email := lit "a@b" |} ]).
Proof.
  assert (N_of_ascii "@" ∈ lit "a@b") as Hat by (vm_compute; repeat constructor).
  split; [exact Hat |].
  exact (proj2 (onSubmit_throws_iff_no_at {| OpaqueEmail.email := lit "a@b" |} []) Hat).
Defined.

(** ** [fetchUserWithFullName] *)

Section ExternalLibProperties.

Context {Args World Other : Type}.
Variable ToStringOther : Other → JS World jsstring.
Variable objectPrototype : gmap (list N) (JSValue Other).
Variable fetchUser : Args → JS World (JSObject Other).

(** The wrapper fulfils when [fetchUser] does and both names convert: with
    the user's own enumerable properties, [fullName] set, and in the state the
    last conversion left. *)
Lemma fetchUserWithFullName_fulfils args w user w1 (first : jsstring) w2
    (last : jsstring) w3 :
  fetchUser args w = (Normal user, w1) →
  ToString ToStringOther (getProperty user (lit "firstName")) w1 = (Normal first, w2) →
  ToString ToStringOther (getProperty user (lit "lastName")) w2 = (Normal last, w3) →
  fetchUserWithFullName ToStringOther objectPrototype fetchUser args w
  = (Normal {| ownEnumerable :=
                 <[lit "fullName" := VString (first ++ lit " " ++ last)]>
                   (ownEnumerable user);
               otherReadable := objectPrototype |}, w3).
Proof.
  intros Hfetch Hfirst Hlast.
  unfold fetchUserWithFullName, mbind, JS_bind.
  rewrite Hfetch, Hfirst, Hlast. reflexivity.
Qed.

(** And only then. *)
Lemma fetchUserWithFullName_fulfils_only_if args w result w3 :
  fetchUserWithFullName ToStringOther objectPrototype fetchUser args w
  = (Normal result, w3) →
  ∃ user w1 first w2 last,
    fetchUser args w = (Normal user, w1)
    ∧ ToString ToStringOther (getProperty user (lit "firstName")) w1
      = (Normal first, w2)
    ∧ ToString ToStringOther (getProperty user (lit "lastName")) w2
      = (Normal last, w3).
Proof.
  unfold fetchUserWithFullName, mbind, JS_bind.
  destruct (fetchUser args w) as [[user | e] w1] eqn:Hfetch; [| discriminate].
  destruct (ToString ToStringOther (getProperty user (lit "firstName")) w1)
    as [[first | e] w2] eqn:Hfirst; [| discriminate].
  destruct (ToString ToStringOther (getProperty user (lit "lastName")) w2)
    as [[last | e] w3'] eqn:Hlast; [| discriminate].
  intros [= _ <-]. by exists user, w1, first, w2, last.
Qed.


(** A rejection of [fetchUser] is the rejection of the wrapper. *)
Lemma fetchUserWithFullName_rejects args w w' reason :
  fetchUser args w = (Throw reason, w') →
  fetchUserWithFullName ToStringOther objectPrototype fetchUser args w
  = (Throw reason, w').
Proof.
  intros Hfetch. unfold fetchUserWithFullName, mbind, JS_bind.
  by rewrite Hfetch.
Qed.

(** C10, as the code has it.  Whenever [fetchUser] fulfils with a user object
    and the conversion of its [firstName] and of its [lastName] to text
    completes, [fetchUserWithFullName] fulfils with a new object in which
    every own enumerable field of the user other than [fullName] has its
    value, and [fullName] holds the text of the first name, one space and the
    text of the last name.  Its fields are the user's and [fullName]: one
    field more when the user has no own [fullName], the same fields with
    [fullName] replaced when it has one. *)
Theorem fetchUserWithFullName_sets_fullName
    args w user w1 (first : jsstring) w2 (last : jsstring) w3 :
  fetchUser args w = (Normal user, w1) →
  ToString ToStringOther (getProperty user (lit "firstName")) w1 = (Normal first, w2) →
  ToString ToStringOther (getProperty user (lit "lastName")) w2 = (Normal last, w3) →
  ∃ result,
    fetchUserWithFullName ToStringOther objectPrototype fetchUser args w
    = (Normal result, w3)
    ∧ (∀ key, key ≠ lit "fullName" →
              ownEnumerable result !! key = ownEnumerable user !! key)
    ∧ ownEnumerable result !! lit "fullName"
      = Some (VString (first ++ lit " " ++ last))
    ∧ dom (ownEnumerable result) = dom (ownEnumerable user) ∪ {[ lit "fullName" ]}
    ∧ (ownEnumerable user !! lit "fullName" = None →
       size (ownEnumerable result) = S (size (ownEnumerable user)))
    ∧ (is_Some (ownEnumerable user !! lit "fullName") →
       size (ownEnumerable result) = size (ownEnumerable user)).
Proof.
  intros Hfetch Hfirst Hlast.
  eexists. split; [by eapply fetchUserWithFullName_fulfils |]. simpl.
  split; [intros key Hkey; by apply lookup_insert_ne |].
  split; [apply lookup_insert_eq |].
  split; [rewrite dom_insert_L; apply union_comm_L |].
  split.
  - intros Hfresh. by apply map_size_insert_None.
  - intros [old Hold]. by eapply map_size_insert_Some.
Qed.

End ExternalLibProperties.

Lemma fetchUserWithFullName_sets_fullName_witness :
  ∃ result,
    fetchUserWithFullName sampleToStringOther sampleObjectPrototype
      sampleFetchUser (lit "7") tt
    = (Normal result, tt)
    ∧ ownEnumerable result !! lit "id" = Some (VString (lit "7"))
    ∧ ownEnumerable result !! lit "fullName" = Some (VString (lit "John Doe"))
    ∧ size (ownEnumerable result) = 4%nat.
Proof.
  destruct (fetchUserWithFullName_sets_fullName sampleToStringOther
              sampleObjectPrototype sampleFetchUser (lit "7") tt
              {| ownEnumerable :=
                   list_to_map
                     [ (lit "id", VString (lit "7"));
                       (lit "firstName", VString (lit "John"));
                       (lit "lastName", VString (lit "Doe")) ];
                 otherReadable := sampleObjectPrototype |}
              tt (lit "John") tt (lit "Doe") tt)
    as (result & Hrun & Hrest & Hfull & _ & Hsize & _);
    [reflexivity | by vm_compute ..|].
  exists result. split; [exact Hrun |]. split; [| split; [exact Hfull |]].
  - rewrite Hrest by (vm_compute; discriminate). by vm_compute.
  - rewrite Hsize by (by vm_compute). by vm_compute.
Defined.

(** The specification's wording fails on a user that comes with a [fullName]:
    the wrapper replaces it, so one field of the user is changed and no field
    is added. *)
Lemma fetchUserWithFullName_extends_counterexample :
  ∃ user result,
    sampleFetchNamedUser (lit "7") tt = (Normal user, tt)
    ∧ fetchUserWithFullName sampleToStringOther sampleObjectPrototype
        sampleFetchNamedUser (lit "7") tt
      = (Normal result, tt)
    ∧ ownEnumerable user !! lit "fullName" = Some (VString (lit "JD"))
    ∧ ownEnumerable result !! lit "fullName" = Some (VString (lit "John Doe"))
    ∧ size (ownEnumerable result) = size (ownEnumerable user)
    ∧ ¬ extendedByFullName user result.
Proof.
  eexists _, _. split; [reflexivity |]. split; [reflexivity |].
  split; [by vm_compute |]. split; [by vm_compute |]. split; [by vm_compute |].
  intros (Hkeep & _).
  specialize (Hkeep (lit "fullName") (VString (lit "JD"))).
  vm_compute in Hkeep. specialize (Hkeep eq_refl). discriminate Hkeep.
Qed.

(** * Further properties of the code *)

(** ** What the role table grants *)

(** X1. An admin may perform every action. *)
Theorem admin_may_do_everything (action : Action) :
  completion (AccessModule.canUserAccess Role_admin action)
             AccessModule.userAccessModel
  = Normal true.
Proof. destruct action; vm_compute; reflexivity. Qed.

(** X2. The privileges are nested: what an anonymous caller may do a user may
    do, and what a user may do an admin may do. *)
Theorem privileges_nested (action : Action) :
  (completion (AccessModule.canUserAccess Role_anonymous action)
              AccessModule.userAccessModel = Normal true
   → completion (AccessModule.canUserAccess Role_user action)
                AccessModule.userAccessModel = Normal true)
  ∧ (completion (AccessModule.canUserAccess Role_user action)
                AccessModule.userAccessModel = Normal true
     → completion (AccessModule.canUserAccess Role_admin action)
                  AccessModule.userAccessModel = Normal true).
Proof.
  split; destruct action; vm_compute; intros H;
    first [reflexivity | discriminate H].
Qed.

Lemma privileges_nested_witness :
  completion (AccessModule.canUserAccess Role_user Action_view)
             AccessModule.userAccessModel = Normal true
  ∧ completion (AccessModule.canUserAccess Role_admin Action_update_self)
               AccessModule.userAccessModel = Normal true.
Proof.
  split.
  - apply (proj1 (privileges_nested Action_view)). vm_compute. reflexivity.
  - apply (proj2 (privileges_nested Action_update_self)). vm_compute. reflexivity.
Defined.

(** X3. Creating, updating somebody else and deleting are the admin's alone:
    for these three actions the answer is [true] exactly for the admin. *)
Theorem only_admin_creates_updates_any_deletes (role : Role) (action : Action) :
  action ∈ [Action_create; Action_update_any; Action_delete] →
  completion (AccessModule.canUserAccess role action)
             AccessModule.userAccessModel = Normal true
  ↔ role = Role_admin.
Proof.
  rewrite !elem_of_cons, elem_of_nil.
  intros [-> | [-> | [-> | []]]]; destruct role; vm_compute;
    split; intros H; first [reflexivity | discriminate H].
Qed.

Lemma only_admin_creates_updates_any_deletes_witness :
  Action_delete ∈ [Action_create; Action_update_any; Action_delete]
  ∧ (completion (AccessModule.canUserAccess Role_user Action_delete)
                AccessModule.userAccessModel = Normal true
     ↔ Role_user = Role_admin).
Proof.
  assert (Action_delete ∈ [Action_create; Action_update_any; Action_delete])
    as Hin by (rewrite !elem_of_cons; tauto).
  split; [exact Hin |].
  exact (only_admin_creates_updates_any_deletes Role_user Action_delete Hin).
Defined.

(** ** [canUserAccess] on strings that are no role or no action *)

Lemma canUserAccessUntyped_names (role : Role) (action : Action) :
  AccessModule.canUserAccessUntyped (roleName role) (actionName action)
  = AccessModule.canUserAccess role action.
Proof. reflexivity. Qed.

(** X4. A role string that is none of the three role names makes the call
    throw a [TypeError], whatever the action; the table is left as it was. *)
Theorem canUserAccessUntyped_unknown_role (role action : jsstring) :
  (∀ r : Role, role ≠ roleName r) →
  AccessModule.canUserAccessUntyped role action AccessModule.userAccessModel
  = (Throw TypeError, AccessModule.userAccessModel).
Proof.
  intros Hunknown.
  unfold AccessModule.canUserAccessUntyped, mbind, JS_bind, getState.
  destruct (AccessModule.userAccessModel !! role) as [entry|] eqn:Hkey.
  - assert (is_Some (AccessModule.userAccessModel !! role)) as Hsome
      by (rewrite Hkey; by eexists).
    apply userAccessModel_keys in Hsome as [r ->]. by destruct (Hunknown r).
  - reflexivity.
Qed.

Lemma canUserAccessUntyped_unknown_role_witness :
  (∀ r : Role, lit "Admin" ≠ roleName r)
  ∧ AccessModule.canUserAccessUntyped (lit "Admin") (lit "view")
      AccessModule.userAccessModel
    = (Throw TypeError, AccessModule.userAccessModel).
Proof.
  assert (∀ r : Role, lit "Admin" ≠ roleName r) as Hunknown
    by (intros []; vm_compute; discriminate).
  split; [exact Hunknown |].
  exact (canUserAccessUntyped_unknown_role (lit "Admin") (lit "view") Hunknown).
Defined.

(** X5. For a role of the table and an action string that is none of the five
    action names the call does not throw: it returns [false]. *)
Theorem canUserAccessUntyped_unknown_action (role : Role) (action : jsstring) :
  (∀ a : Action, action ≠ actionName a) →
  AccessModule.canUserAccessUntyped (roleName role) action
    AccessModule.userAccessModel
  = (Normal false, AccessModule.userAccessModel).
Proof.
  intros Hunknown.
  destruct (userAccessModel_entry role) as (entry & Hentry & _ & Hsub).
  unfold AccessModule.canUserAccessUntyped, mbind, JS_bind, getState.
  rewrite Hentry. unfold mret, JS_ret. do 2 f_equal.
  apply Array_includes_not_elem_of. intros Hin.
  apply Hsub, list_elem_of_fmap in Hin as (a & -> & _).
  by destruct (Hunknown a).
Qed.

Lemma canUserAccessUntyped_unknown_action_witness :
  (∀ a : Action, lit "View" ≠ actionName a)
  ∧ AccessModule.canUserAccessUntyped (roleName Role_admin) (lit "View")
      AccessModule.userAccessModel
    = (Normal false, AccessModule.userAccessModel).
Proof.
  assert (∀ a : Action, lit "View" ≠ actionName a) as Hunknown
    by (intros []; vm_compute; discriminate).
  split; [exact Hunknown |].
  exact (canUserAccessUntyped_unknown_action Role_admin (lit "View") Hunknown).
Defined.

(** ** The email check and what reaches [createUser] *)

Lemma Values_eta (values : OpaqueEmail.Values) :
  {| OpaqueEmail.email := OpaqueEmail.email values |} = values.
Proof. by destruct values. Qed.

(** One submission: the log grows by the form when its email has an ["@"] and
    is left alone when it has none. *)
Lemma onSubmit_finalState (values : OpaqueEmail.Values) (calls : list OpaqueEmail.Values) :
  finalState (OpaqueEmail.onSubmit values) calls
  = if OpaqueEmail.isValidEmail (OpaqueEmail.email values)
    then calls ++ [values] else calls.
Proof.
  unfold finalState.
  destruct (OpaqueEmail.isValidEmail (OpaqueEmail.email values)) eqn:Hvalid.
  - by rewrite (onSubmit_valid _ _ Hvalid), Values_eta.
  - by rewrite (onSubmit_invalid _ _ Hvalid).
Qed.

(** X6. [isValidEmail] looks for the ["@"] and for nothing else: a string put
    together from two parts passes exactly when one of the parts does. *)
Theorem isValidEmail_app (front back : jsstring) :
  OpaqueEmail.isValidEmail (front ++ back)
  = OpaqueEmail.isValidEmail front || OpaqueEmail.isValidEmail back.
Proof.
  apply eq_true_iff_eq.
  rewrite orb_true_iff, !isValidEmail_at, elem_of_app. reflexivity.
Qed.

(** X7. A submission changes nothing exactly when it is rejected: the list of
    [createUser] calls after [onSubmit] is the list before it if and only if
    the email has no ["@"]. *)
Theorem onSubmit_no_call_iff_invalid
    (values : OpaqueEmail.Values) (calls : list OpaqueEmail.Values) :
  finalState (OpaqueEmail.onSubmit values) calls = calls
  ↔ N_of_ascii "@" ∉ OpaqueEmail.email values.
Proof.
  rewrite onSubmit_finalState, <- isValidEmail_at.
  destruct (OpaqueEmail.isValidEmail (OpaqueEmail.email values)).
  - split.
    + intros Hsame. apply (f_equal length) in Hsame.
      rewrite length_app in Hsame. simpl in Hsame. lia.
    + intros Hno. by destruct Hno.
  - split; [discriminate | reflexivity].
Qed.

(** X8. After any run of submissions [createUser] has been called, in the
    order of submission, with exactly the forms whose email has an ["@"], and
    the calls made before are still at the head of the list. *)
Theorem submitAll_calls
    (forms : list OpaqueEmail.Values) (calls : list OpaqueEmail.Values) :
  OpaqueEmail.submitAll forms calls
  = calls ++ filter (λ values, N_of_ascii "@" ∈ OpaqueEmail.email values) forms.
Proof.
  revert calls. induction forms as [|values forms IH]; intros calls.
  - simpl. by rewrite app_nil_r.
  - cbn [OpaqueEmail.submitAll]. rewrite IH, onSubmit_finalState, filter_cons.
    destruct (OpaqueEmail.isValidEmail (OpaqueEmail.email values)) eqn:Hvalid.
    + apply isValidEmail_at in Hvalid. rewrite decide_True by done.
      by rewrite <- app_assoc.
    + rewrite decide_False; [done |].
      rewrite <- isValidEmail_at. congruence.
Qed.

(** X9. [createUser] is never handed an email without an ["@"]: if every call
    so far had one, so has every call after any run of submissions, whatever
    was submitted. *)
Theorem submitAll_only_valid
    (forms : list OpaqueEmail.Values) (calls : list OpaqueEmail.Values) :
  Forall (λ user, OpaqueEmail.isValidEmail (OpaqueEmail.email user) = true) calls →
  Forall (λ user, OpaqueEmail.isValidEmail (OpaqueEmail.email user) = true)
         (OpaqueEmail.submitAll forms calls).
Proof.
  revert calls. induction forms as [|values forms IH]; intros calls Hcalls.
  - exact Hcalls.
  - cbn [OpaqueEmail.submitAll]. apply IH. rewrite onSubmit_finalState.
    destruct (OpaqueEmail.isValidEmail (OpaqueEmail.email values)) eqn:Hvalid.
    + apply Forall_app. split; [exact Hcalls |]. by apply Forall_singleton.
    + exact Hcalls.
Qed.

Lemma submitAll_only_valid_witness :
  Forall (λ user, OpaqueEmail.isValidEmail (OpaqueEmail.email user) = true)
         (OpaqueEmail.submitAll
            [ {| OpaqueEmail.email := lit "nobody" |};
              {| OpaqueEmail.email := lit "a@b" |};
              {| OpaqueEmail.email := [] |} ]
            [ {| OpaqueEmail.email := lit "@" |} ]).
Proof.
  apply submitAll_only_valid.
  apply Forall_singleton. vm_compute. reflexivity.
Defined.

(** ** [fetchUserWithFullName] at the edges *)

Lemma firstName_ne_fullName : lit "fullName" ≠ lit "firstName".
Proof. vm_compute. discriminate. Qed.

Lemma lastName_ne_fullName : lit "fullName" ≠ lit "lastName".
Proof. vm_compute. discriminate. Qed.

Section ExternalLibPlain.

Context {Args World Other : Type}.
Variable ToStringOther : Other → JS World jsstring.
Variable objectPrototype : gmap (list N) (JSValue Other).
Variable fetchUser : Args → JS World (JSObject Other).

Lemma ToString_plainText (v : JSValue Other) (text : jsstring) (w : World) :
  plainText v = Some text → ToString ToStringOther v w = (Normal text, w).
Proof. destruct v; simpl; intros [= <-]; reflexivity. Qed.

(** When both names convert without running code the wrapper adds nothing to
    what [fetchUser] did: it fulfils with the user's own properties,
    [fullName] set. *)
Lemma fetchUserWithFullName_plain args w w' user (first last : jsstring) :
  fetchUser args w = (Normal user, w') →
  plainText (getProperty user (lit "firstName")) = Some first →
  plainText (getProperty user (lit "lastName")) = Some last →
  fetchUserWithFullName ToStringOther objectPrototype fetchUser args w
  = (Normal {| ownEnumerable :=
                 <[lit "fullName" := VString (first ++ lit " " ++ last)]>
                   (ownEnumerable user);
               otherReadable := objectPrototype |}, w').
Proof.
  intros Hfetch Hfirst Hlast.
  apply fetchUserWithFullName_fulfils with (w1 := w') (w2 := w');
    [exact Hfetch | by apply ToString_plainText ..].
Qed.

End ExternalLibPlain.

Section ExternalLibEdges.

Context {Args World Other : Type}.
Variable ToStringOther : Other → JS World jsstring.
Variable objectPrototype : gmap (list N) (JSValue Other).
Variable fetchUser : Args → JS World (JSObject Other).


(** X11. A name that a read of the user object finds nowhere, neither on the
    object nor up its prototype chain, reads ["undefined"] in [fullName]; the
    wrapper does not throw on it.  With [first] and [last] the strings the
    reads find, if any, [fullName] is the first name or ["undefined"], a
    space, and the last name or ["undefined"]. *)
Theorem fetchUserWithFullName_missing_names
    args w w' user (first last : option jsstring) :
  fetchUser args w = (Normal user, w') →
  lookupProperty user (lit "firstName") = VString <$> first →
  lookupProperty user (lit "lastName") = VString <$> last →
  fetchUserWithFullName ToStringOther objectPrototype fetchUser args w
  = (Normal {| ownEnumerable :=
                 <[lit "fullName" :=
                     VString (default (lit "undefined") first ++ lit " "
                              ++ default (lit "undefined") last)]>
                   (ownEnumerable user);
               otherReadable := objectPrototype |}, w').
Proof.
  intros Hfetch Hfirst Hlast.
  apply fetchUserWithFullName_plain with (1 := Hfetch); unfold getProperty.
  - rewrite Hfirst. by destruct first.
  - rewrite Hlast. by destruct last.
Qed.

(** X12. When the names of every user [fetchUser] can fulfil with convert
    without running code, the wrapper rejects exactly when [fetchUser] does,
    and with the same reason. *)
Theorem fetchUserWithFullName_rejects_iff args w (reason : JSError) :
  (∀ user w', fetchUser args w = (Normal user, w') → plainNames user) →
  completion (fetchUserWithFullName ToStringOther objectPrototype fetchUser args) w
  = Throw reason
  ↔ completion (fetchUser args) w = Throw reason.
Proof.
  intros Hplain. unfold completion.
  destruct (fetchUser args w) as [[user | e] w'] eqn:Hfetch.
  - destruct (Hplain user w' eq_refl) as [[first Hfirst] [last Hlast]].
    rewrite (fetchUserWithFullName_plain ToStringOther objectPrototype
               _ _ _ _ _ _ _ Hfetch Hfirst Hlast).
    simpl. split; discriminate.
  - by rewrite (fetchUserWithFullName_rejects ToStringOther objectPrototype
                  _ _ _ _ _ Hfetch).
Qed.

(** X13. Wrapping twice is wrapping once when the names are the user object's
    own: if [firstName] and [lastName] are own enumerable properties of every
    user [fetchUser] can fulfil with, and convert without running code, the
    wrapper applied to the wrapped [fetchUser] settles as the wrapper applied
    to [fetchUser], with the same object and state. *)
Theorem fetchUserWithFullName_idempotent args w :
  (∀ user w', fetchUser args w = (Normal user, w') → ownPlainNames user) →
  fetchUserWithFullName ToStringOther objectPrototype
    (fetchUserWithFullName ToStringOther objectPrototype fetchUser) args w
  = fetchUserWithFullName ToStringOther objectPrototype fetchUser args w.
Proof.
  intros Hown.
  destruct (fetchUser args w) as [[user | e] w'] eqn:Hfetch.
  - destruct (Hown user w' eq_refl)
      as [(vf & Hvf & [first Hfirst]) (vl & Hvl & [last Hlast])].
    assert (fetchUserWithFullName ToStringOther objectPrototype fetchUser args w
            = (Normal {| ownEnumerable :=
                           <[lit "fullName" := VString (first ++ lit " " ++ last)]>
                             (ownEnumerable user);
                         otherReadable := objectPrototype |}, w')) as Honce.
    { apply fetchUserWithFullName_plain with (1 := Hfetch);
        unfold getProperty, lookupProperty.
      - by rewrite Hvf.
      - by rewrite Hvl. }
    rewrite Honce.
    erewrite (fetchUserWithFullName_plain ToStringOther objectPrototype
                (fetchUserWithFullName ToStringOther objectPrototype fetchUser));
      [| exact Honce | |]; simpl.
    + by rewrite insert_insert_eq.
    + unfold getProperty, lookupProperty. simpl.
      rewrite lookup_insert_ne by apply firstName_ne_fullName.
      rewrite Hvf. exact Hfirst.
    + unfold getProperty, lookupProperty. simpl.
      rewrite lookup_insert_ne by apply lastName_ne_fullName.
      rewrite Hvl. exact Hlast.
  - pose proof (fetchUserWithFullName_rejects ToStringOther objectPrototype
                  _ _ _ _ _ Hfetch) as Honce.
    rewrite Honce.
    exact (fetchUserWithFullName_rejects ToStringOther objectPrototype
             _ _ _ _ _ Honce).
Qed.

(** X14. Names the user has only through its class or prototype are used and
    then lost.  If the reads of [firstName] and [lastName] find strings that
    are no own enumerable properties of the user, and [Object.prototype] has
    no such properties, then [fullName] is made of these strings, but the
    result has no first or last name to read; wrapping the wrapped
    [fetchUser] once more gives the [fullName] ["undefined undefined"]. *)
Theorem fetchUserWithFullName_drops_inherited_names
    args w w' user (first last : jsstring) :
  fetchUser args w = (Normal user, w') →
  ownEnumerable user !! lit "firstName" = None →
  ownEnumerable user !! lit "lastName" = None →
  otherReadable user !! lit "firstName" = Some (VString first) →
  otherReadable user !! lit "lastName" = Some (VString last) →
  objectPrototype !! lit "firstName" = None →
  objectPrototype !! lit "lastName" = None →
  ∃ result again,
    fetchUserWithFullName ToStringOther objectPrototype fetchUser args w
    = (Normal result, w')
    ∧ ownEnumerable result !! lit "fullName"
      = Some (VString (first ++ lit " " ++ last))
    ∧ getProperty result (lit "firstName") = VUndefined
    ∧ getProperty result (lit "lastName") = VUndefined
    ∧ fetchUserWithFullName ToStringOther objectPrototype
        (fetchUserWithFullName ToStringOther objectPrototype fetchUser) args w
      = (Normal again, w')
    ∧ ownEnumerable again !! lit "fullName"
      = Some (VString (lit "undefined undefined")).
Proof.
  intros Hfetch Hown1 Hown2 Hget1 Hget2 Hproto1 Hproto2.
  assert (fetchUserWithFullName ToStringOther objectPrototype fetchUser args w
          = (Normal {| ownEnumerable :=
                         <[lit "fullName" := VString (first ++ lit " " ++ last)]>
                           (ownEnumerable user);
                       otherReadable := objectPrototype |}, w')) as Honce.
  { apply fetchUserWithFullName_plain with (1 := Hfetch);
      unfold getProperty, lookupProperty.
    - by rewrite Hown1, Hget1.
    - by rewrite Hown2, Hget2. }
  assert (∀ key, lit "fullName" ≠ key →
                 ownEnumerable user !! key = None → objectPrototype !! key = None →
                 getProperty
                   {| ownEnumerable :=
                        <[lit "fullName" := VString (first ++ lit " " ++ last)]>
                          (ownEnumerable user);
                      otherReadable := objectPrototype |} key
                 = VUndefined) as Hgone.
  { intros key Hne Hown Hproto. unfold getProperty, lookupProperty. simpl.
    by rewrite lookup_insert_ne, Hown, Hproto. }
  eexists _, _. split; [exact Honce |]. simpl.
  split; [apply lookup_insert_eq |].
  split; [by apply Hgone; [apply firstName_ne_fullName | |] |].
  split; [by apply Hgone; [apply lastName_ne_fullName | |] |].
  split.
  - apply (fetchUserWithFullName_plain ToStringOther objectPrototype
             (fetchUserWithFullName ToStringOther objectPrototype fetchUser))
      with (1 := Honce) (first := lit "undefined") (last := lit "undefined").
    + rewrite Hgone; [done | apply firstName_ne_fullName | done | done].
    + rewrite Hgone; [done | apply lastName_ne_fullName | done | done].
  - simpl. apply lookup_insert_eq.
Qed.

End ExternalLibEdges.

Lemma sampleFetchUser_ownPlainNames (id : jsstring) user (w' : unit) :
  sampleFetchUser id tt = (Normal user, w') → ownPlainNames user.
Proof.
  intros [= <- _]. split; eexists; (split; [by vm_compute | by eexists]).
Qed.

Lemma sampleFetchUser_plainNames (id : jsstring) user (w' : unit) :
  sampleFetchUser id tt = (Normal user, w') → plainNames user.
Proof.
  intros [= <- _]. split; eexists; vm_compute; reflexivity.
Qed.


Lemma fetchUserWithFullName_missing_names_witness :
  fetchUserWithFullName sampleToStringOther sampleObjectPrototype
    sampleFetchBareUser (lit "7") tt
  = (Normal {| ownEnumerable :=
                 <[lit "fullName" := VString (lit "undefined undefined")]>
                   (list_to_map [ (lit "id", VString (lit "7")) ]);
               otherReadable := sampleObjectPrototype |}, tt).
Proof.
  pose proof (fetchUserWithFullName_missing_names sampleToStringOther
                sampleObjectPrototype sampleFetchBareUser (lit "7") tt tt
                {| ownEnumerable := list_to_map [ (lit "id", VString (lit "7")) ];
                   otherReadable := sampleObjectPrototype |} None None)
    as Hrun.
  exact (Hrun eq_refl eq_refl eq_refl).
Defined.

Lemma fetchUserWithFullName_rejects_iff_witness :
  completion (fetchUserWithFullName sampleToStringOther sampleObjectPrototype
                sampleFetchUser (lit "7")) tt
  = Throw TypeError
  ↔ completion (sampleFetchUser (lit "7")) tt = Throw TypeError.
Proof.
  apply fetchUserWithFullName_rejects_iff.
  intros user w'. apply sampleFetchUser_plainNames.
Defined.

Lemma fetchUserWithFullName_idempotent_witness :
  fetchUserWithFullName sampleToStringOther sampleObjectPrototype
    (fetchUserWithFullName sampleToStringOther sampleObjectPrototype sampleFetchUser)
    (lit "7") tt
  = fetchUserWithFullName sampleToStringOther sampleObjectPrototype
      sampleFetchUser (lit "7") tt.
Proof.
  apply fetchUserWithFullName_idempotent.
  intros user w'. apply sampleFetchUser_ownPlainNames.
Defined.

Lemma fetchUserWithFullName_drops_inherited_names_witness :
  ∃ result again,
    fetchUserWithFullName sampleToStringOther sampleObjectPrototype
      sampleFetchClassUser (lit "7") tt
    = (Normal result, tt)
    ∧ ownEnumerable result !! lit "fullName" = Some (VString (lit "John Doe"))
    ∧ getProperty result (lit "firstName") = VUndefined
    ∧ fetchUserWithFullName sampleToStringOther sampleObjectPrototype
        (fetchUserWithFullName sampleToStringOther sampleObjectPrototype
           sampleFetchClassUser) (lit "7") tt
      = (Normal again, tt)
    ∧ ownEnumerable again !! lit "fullName"
      = Some (VString (lit "undefined undefined")).
Proof.
  destruct (fetchUserWithFullName_drops_inherited_names sampleToStringOther
              sampleObjectPrototype sampleFetchClassUser (lit "7") tt tt
              {| ownEnumerable := list_to_map [ (lit "id", VString (lit "7")) ];
                 otherReadable :=
                   list_to_map
                     [ (lit "firstName", VString (lit "John"));
                       (lit "lastName", VString (lit "Doe")) ] |}
              (lit "John") (lit "Doe"))
    as (result & again & Hrun & Hfull & Hfirst & _ & Htwice & Hagain);
    [reflexivity | by vm_compute ..|].
  exists result, again. by repeat split.
Defined.
